(** * The Information Catastrophe notebook

    A shallow embedding of [info_catastrophe_nb.py]: the three closed-form
    evaluators [bits_estimation], [power_requirement] and
    [mass_energy_equivalent], the list comprehensions that sweep them over
    [years], and the two plotting cells.  A Python [float] and a
    [numpy.float64] are IEEE binary64 values, and the code is embedded at
    two levels of detail.

    The exact layer (the top-level definitions).  A number is a
    [float64]: a real number, one of the two infinities, or NaN.  Rounding
    to 53 bits is not modelled (a finite value is the real it denotes,
    and zero carries no sign); leaving the binary64 range is, by a
    comparison with the largest finite binary64 [float_max].  This layer
    carries what does not depend on rounding: which exceptions are raised
    and which are caught, where NaN comes from, the shape of the sweeps
    and of the figures, and magnitudes that hold with a wide margin.

    The binary64 layer (module [B64]).  A number is a primitive [float],
    so every [+], [-], [*] and [/] is the rounded one; the C library's
    [pow], [log10] and [log] are a parameter.  This layer carries the
    values the evaluators return.

    In both layers an operation follows the run time that executes it,
    and the two run times differ:
    - arithmetic on Python floats raises [ZeroDivisionError] on a zero
      divisor, and [**] raises [OverflowError] when the power leaves the
      range; [+], [-], [*] and [/] silently give an infinity;
    - arithmetic on numpy scalars never raises: it gives infinities and
      NaN (and prints a warning). *)

From Stdlib Require Import Reals Lra Lia ZArith List String Floats.
Import ListNotations.
Open Scope R_scope.
Set Warnings "-inexact-float".

(** ** IEEE values *)

Inductive float64 : Type :=
| Fin (x : R)
| PInf
| NInf
| NaN.

(** [sys.float_info.max], the largest finite binary64: (2 - 2^-52) * 2^1023. *)
Definition float_max : R := (2 - / 2 ^ 52) * 2 ^ 1023.

Definition in_range (r : R) : Prop := Rabs r <= float_max.

Definition in_range_dec (r : R) : {in_range r} + {~ in_range r} :=
  Rle_dec (Rabs r) float_max.

(** The result of an arithmetic operation whose exact value is [r]. *)
Definition round (r : R) : float64 :=
  if Rlt_dec float_max r then PInf
  else if Rlt_dec r (- float_max) then NInf
  else Fin r.

(** An infinity with the sign of [r]; NaN when [r] is zero
    (the value of inf * r). *)
Definition inf_signed (r : R) : float64 :=
  match total_order_T r 0 with
  | inleft (left _) => NInf
  | inleft (right _) => NaN
  | inright _ => PInf
  end.

Definition f_neg (a : float64) : float64 :=
  match a with
  | Fin x => Fin (- x)
  | PInf => NInf
  | NInf => PInf
  | NaN => NaN
  end.

Definition f_add (a b : float64) : float64 :=
  match a, b with
  | NaN, _ | _, NaN => NaN
  | PInf, NInf | NInf, PInf => NaN
  | PInf, _ | _, PInf => PInf
  | NInf, _ | _, NInf => NInf
  | Fin x, Fin y => round (x + y)
  end.

Definition f_sub (a b : float64) : float64 := f_add a (f_neg b).

Definition f_mul (a b : float64) : float64 :=
  match a, b with
  | NaN, _ | _, NaN => NaN
  | Fin x, Fin y => round (x * y)
  | Fin x, PInf | PInf, Fin x => inf_signed x
  | Fin x, NInf | NInf, Fin x => inf_signed (- x)
  | PInf, PInf | NInf, NInf => PInf
  | PInf, NInf | NInf, PInf => NInf
  end.

(** IEEE division: a zero divisor gives an infinity (NaN for 0/0). *)
Definition f_div (a b : float64) : float64 :=
  match a, b with
  | NaN, _ | _, NaN => NaN
  | Fin x, Fin y =>
      if Req_dec_T y 0 then inf_signed x else round (x / y)
  | Fin _, (PInf | NInf) => Fin 0
  | PInf, Fin y => if Rlt_dec y 0 then NInf else PInf
  | NInf, Fin y => if Rlt_dec y 0 then PInf else NInf
  | (PInf | NInf), (PInf | NInf) => NaN
  end.

Definition is_finite (a : float64) : Prop :=
  match a with Fin _ => True | _ => False end.

(** ** Exceptions *)

Inductive exn : Type := OverflowError | ZeroDivisionError.

Definition exn_eqb (e1 e2 : exn) : bool :=
  match e1, e2 with
  | OverflowError, OverflowError => true
  | ZeroDivisionError, ZeroDivisionError => true
  | _, _ => false
  end.

Inductive result (A : Type) : Type :=
| Return (a : A)
| Raise (e : exn).

Arguments Return {A} a.
Arguments Raise {A} e.

Definition bind {A B : Type} (m : result A) (k : A -> result B) : result B :=
  match m with
  | Return a => k a
  | Raise e => Raise e
  end.

Notation "x <- m ;; k" := (bind m (fun x => k))
  (at level 61, m at next level, right associativity).

(** [try: body except e: handler]. *)
Definition try_except {A : Type} (body : result A) (e : exn)
    (handler : result A) : result A :=
  match body with
  | Return a => Return a
  | Raise e' => if exn_eqb e' e then handler else Raise e'
  end.

(** A list comprehension [[g(y) for y in l]]: left to right, the first
    exception ends it. *)
Fixpoint list_comp {A B : Type} (g : A -> result B) (l : list A)
    : result (list B) :=
  match l with
  | [] => Return []
  | y :: l' =>
      v <- g y ;;
      vs <- list_comp g l' ;;
      Return (v :: vs)
  end.

(** ** Python float operations *)

(** [float(k)] for an int [k], as done to an int operand of a float
    operation: "int too large to convert to float". *)
Definition float_of_int (k : Z) : result float64 :=
  if in_range_dec (IZR k) then Return (Fin (IZR k)) else Raise OverflowError.

(** [a / b] on Python floats. *)
Definition py_truediv (a b : float64) : result float64 :=
  match b with
  | Fin y => if Req_dec_T y 0 then Raise ZeroDivisionError
             else Return (f_div a b)
  | _ => Return (f_div a b)
  end.

(** [x ** k] for a Python float [x] and an int [k]: CPython's [float_pow]
    with the int converted first.  Its cases, in order: a zero exponent,
    a NaN base, an infinite base, a zero base, then the platform [pow]
    with a range error turned into [OverflowError]. *)
Definition py_pow (x : float64) (k : Z) : result float64 :=
  _ <- float_of_int k ;;
  if (k =? 0)%Z then Return (Fin 1)
  else
    match x with
    | NaN => Return NaN
    | PInf => Return (if (0 <? k)%Z then PInf else Fin 0)
    | NInf => Return (if (0 <? k)%Z
                      then (if Z.odd k then NInf else PInf)
                      else Fin 0)
    | Fin a =>
        if Req_dec_T a 0 then
          if (k <? 0)%Z then Raise ZeroDivisionError else Return (Fin 0)
        else if in_range_dec (powerRZ a k) then Return (Fin (powerRZ a k))
        else Raise OverflowError
    end.

(** ** numpy scalar operations *)

Definition np_nan : float64 := NaN.

Definition np_truediv (a b : float64) : float64 := f_div a b.

(** [np.log]: the natural logarithm. *)
Definition np_log (a : float64) : float64 :=
  match a with
  | Fin x =>
      match total_order_T x 0 with
      | inleft (left _) => NaN
      | inleft (right _) => NInf
      | inright _ => Fin (ln x)
      end
  | PInf => PInf
  | NInf => NaN
  | NaN => NaN
  end.

Definition Rlog10 (x : R) : R := ln x / ln 10.

(** [np.log10]. *)
Definition np_log10 (a : float64) : float64 :=
  match a with
  | Fin x =>
      match total_order_T x 0 with
      | inleft (left _) => NaN
      | inleft (right _) => NInf
      | inright _ => Fin (Rlog10 x)
      end
  | PInf => PInf
  | NInf => NaN
  | NaN => NaN
  end.

(** ** The three evaluators *)

Definition default_f : float64 := Fin 0.01.
Definition default_N_b : float64 := Fin 7.3e21.
Definition default_T : float64 := Fin 300.

(** [bits_estimation(n, f, N_b)].  [n] is an int, as the elements of
    [years] are; [N_b] and [f] are Python floats, as the default and the
    elements of [growth_rates] are, so the quotient is a Python division. *)
Definition bits_estimation (n : Z) (f N_b : float64) : result float64 :=
  try_except
    (q <- py_truediv N_b f ;;
     p <- py_pow (f_add f (Fin 1)) (n + 1) ;;
     let bits := f_mul q (f_sub p (Fin 1)) in
     Return (np_log10 bits))
    OverflowError
    (Return np_nan).

(** [power_requirement(n, f, N_b, T)].  [np.log(2)] is a numpy scalar, and
    so is every product and quotient it enters.  [T] (300 by default, an
    int) is the float it converts to. *)
Definition power_requirement (n : Z) (f N_b T : float64) : result float64 :=
  let k_B := Fin 1.38064852e-23 in
  let annual_seconds := Fin 3.154e7 in
  try_except
    (let landauer := f_mul (f_mul (f_mul N_b k_B) T) (np_log (Fin 2)) in
     p <- py_pow (f_add f (Fin 1)) n ;;
     let energy := f_mul landauer p in
     Return (np_log10 (np_truediv energy annual_seconds)))
    OverflowError
    (Return np_nan).

(** [mass_energy_equivalent(n, f, N_b, T)].  [m_bit] is a numpy scalar
    (it has [np.log(2)] as a factor), so [m_bit / f] is a numpy division. *)
Definition mass_energy_equivalent (n : Z) (f N_b T : float64)
    : result float64 :=
  let k_B := Fin 1.38064852e-23 in
  let c := Fin 3.0e8 in
  try_except
    (let kTln2 := f_mul (f_mul k_B T) (np_log (Fin 2)) in
     c2 <- py_pow c 2 ;;
     let m_bit := np_truediv kTln2 c2 in
     p <- py_pow (f_add f (Fin 1)) (n + 1) ;;
     let info_mass :=
       f_mul (f_mul N_b (np_truediv m_bit f)) (f_sub p (Fin 1)) in
     Return (np_log10 info_mass))
    OverflowError
    (Return np_nan).

(** ** The sweeps and the plots *)

(** [list(range(lo, hi))]. *)
Definition range (lo hi : Z) : list Z :=
  map (fun i => (lo + Z.of_nat i)%Z) (seq 0 (Z.to_nat (hi - lo))).

Definition years : list Z := range 1 10001.

Definition growth_rates : list float64 :=
  [Fin 0.01; Fin 0.05; Fin 0.2; Fin 0.5].

Inductive linestyle : Type := Solid | Dashed.

(** A legend label: one of the two literal strings, or the growth rate
    formatted as a percentage. *)
Inductive label : Type :=
| Text (s : string)
| Percent (f : float64).

Record Line : Type := mkLine {
  xdata : list Z;
  ydata : list float64;
  line_label : label;
  line_style : linestyle
}.

Record Axes : Type := mkAxes {
  lines : list Line;
  title : string;
  ylabel : string;
  xlabel : string;
  ylim : option (Z * Z);
  xscale_log : bool;
  legend : bool
}.

Definition new_axes : Axes := mkAxes [] "" "" "" None false false.

(** [ax.plot(xs, ys, label=l, linestyle=s)] adds one line, after those
    already there. *)
Definition plot (ax : Axes) (xs : list Z) (ys : list float64) (l : label)
    (s : linestyle) : Axes :=
  mkAxes (lines ax ++ [mkLine xs ys l s]) (title ax) (ylabel ax) (xlabel ax)
         (ylim ax) (xscale_log ax) (legend ax).

(** The calls that end a cell: title, log x axis, labels, limits, legend. *)
Definition decorate (ax : Axes) (t yl xl : string) (lo hi : Z) : Axes :=
  mkAxes (lines ax) t yl xl (Some (lo, hi)) true true.

(** The series of one evaluator for one scenario. *)
Definition sweep (g : Z -> float64 -> result float64) (f : float64)
    : result (list float64) :=
  list_comp (fun y => g y f) years.

(** Cell In[4]: the growth model for every scenario. *)
Fixpoint growth_loop (rates : list float64) (ax : Axes) : result Axes :=
  match rates with
  | [] => Return ax
  | f :: rest =>
      bits <- sweep (fun y f => bits_estimation y f default_N_b) f ;;
      growth_loop rest (plot ax years bits (Percent f) Solid)
  end.

Definition growth_figure : result Axes :=
  ax <- growth_loop growth_rates new_axes ;;
  Return (decorate ax "Model of Digital Content Production Growth"
            "Annual Info. Production [log10(bits)]"
            "Years from Present (log10 scale)" 20 35).

Definition p_earth : float64 := np_log10 (Fin 18.5e12).
Definition m_earth : float64 := np_log10 (Fin 6e24).

(** Cell In[7], the loop: both series are computed, [bits] is drawn on
    both axes. *)
Fixpoint limits_loop (rates : list float64) (ax : Axes * Axes)
    : result (Axes * Axes) :=
  match rates with
  | [] => Return ax
  | f :: rest =>
      bits <- sweep (fun y f => mass_energy_equivalent y f default_N_b
                                  default_T) f ;;
      power <- sweep (fun y f => power_requirement y f default_N_b
                                   default_T) f ;;
      let ax0 := plot (fst ax) years bits (Percent f) Solid in
      let ax1 := plot (snd ax) years bits (Percent f) Solid in
      limits_loop rest (ax0, ax1)
  end.

Definition limits_figure : result (Axes * Axes) :=
  let ax0 := plot new_axes years (map (fun _ => p_earth) years)
               (Text "Earth Power") Dashed in
  let ax1 := plot new_axes years (map (fun _ => m_earth) years)
               (Text "Earth Mass") Dashed in
  ax <- limits_loop growth_rates (ax0, ax1) ;;
  Return
    (decorate (fst ax) "Power Requirement of Digital Bit Production"
       "log10(Power [W])" "Years from Present [log10 scale]" (-20) 35,
     decorate (snd ax) "Information Mass of Digital Bit Production"
       "log10(mass [kg])" "Years from Present [log10 scale]" (-20) 35).

(** ** The series of the two cells *)

(** The series a sweep returned (empty when it raised). *)
Definition series_of (r : result (list float64)) : list float64 :=
  match r with
  | Return s => s
  | Raise _ => []
  end.

(** The sweep of cell In[4], with its default baseline. *)
Definition growth_sweep (f : float64) : result (list float64) :=
  sweep (fun y f => bits_estimation y f default_N_b) f.

(** The two sweeps of cell In[7], with its default arguments. *)
Definition mass_sweep (f : float64) : result (list float64) :=
  sweep (fun y f => mass_energy_equivalent y f default_N_b default_T) f.

Definition power_sweep (f : float64) : result (list float64) :=
  sweep (fun y f => power_requirement y f default_N_b default_T) f.

(** ** Range conditions

    Every intermediate result of an evaluator's expression, taken exactly,
    is within the binary64 range. *)

Definition power_no_overflow (n : nat) (f N_b T : R) : Prop :=
  in_range (N_b * 1.38064852e-23) /\
  in_range (N_b * 1.38064852e-23 * T) /\
  in_range (N_b * 1.38064852e-23 * T * ln 2) /\
  in_range (IZR (Z.of_nat n)) /\
  in_range ((f + 1) ^ n) /\
  in_range (N_b * 1.38064852e-23 * T * ln 2 * (f + 1) ^ n) /\
  in_range (N_b * 1.38064852e-23 * T * ln 2 * (f + 1) ^ n / 3.154e7).

(** [m_bit] of [mass_energy_equivalent], taken exactly. *)
Definition m_bit_of (T : R) : R := 1.38064852e-23 * T * ln 2 / 3.0e8 ^ 2.

Definition mass_no_overflow (n : nat) (f N_b T : R) : Prop :=
  in_range (1.38064852e-23 * T) /\
  in_range (1.38064852e-23 * T * ln 2) /\
  in_range (m_bit_of T) /\
  in_range (m_bit_of T / f) /\
  in_range (N_b * (m_bit_of T / f)) /\
  in_range (IZR (Z.of_nat n + 1)) /\
  in_range ((f + 1) ^ (n + 1)) /\
  in_range (N_b * (m_bit_of T / f) * ((f + 1) ^ (n + 1) - 1)).

(** * The evaluators over binary64

    The same three functions with every number a binary64 value, Rocq's
    primitive [float]: [+], [-], [*] and [/] round to nearest-even, zero
    has a sign, a decimal literal is the nearest binary64.  The C library
    is a parameter: [pow] (with the range error it reports through
    [errno]), [log10] and [log] are the platform's and nothing is assumed
    of them.  The special cases that CPython's [float_pow] and numpy decide
    themselves are modelled as they are written there. *)

Module B64.
Local Open Scope float_scope.

Record Libm : Type := mkLibm {
  libm_pow : float -> float -> float * bool;
  libm_log10 : float -> float;
  libm_log : float -> float
}.

(** [float(k)] for an int [k] ([PyLong_AsDouble]): round to nearest-even,
    [OverflowError] when the rounded value is not finite. *)
Definition float_of_int (k : Z) : result float :=
  let x := SF2Prim (binary_normalize prec emax k 0 false) in
  if is_infinity x then Raise OverflowError else Return x.

(** [a / b] on Python floats ([float_div]). *)
Definition py_truediv (a b : float) : result float :=
  if b =? 0 then Raise ZeroDivisionError else Return (a / b).

(** [DOUBLE_IS_ODD_INTEGER]: [fmod(fabs(x), 2.0) == 1.0]. *)
Definition is_odd_integer (x : float) : bool :=
  match Prim2SF x with
  | S754_finite _ m e =>
      if (0 <? e)%Z then false
      else
        let d := (2 ^ (- e))%Z in
        andb (Zpos m mod d =? 0)%Z (Z.odd (Zpos m / d))
  | _ => false
  end.

(** [x ** k] for a Python float [x] and an int [k]: [float_pow], the int
    converted first.  [iw] is an integer value, so the complex case of a
    negative base does not arise; the base handed to [pow] is positive,
    finite and not 1. *)
Definition py_pow (L : Libm) (x : float) (k : Z) : result float :=
  iw <- float_of_int k ;;
  if iw =? 0 then Return 1
  else if is_nan x then Return x
  else if is_infinity x then
    if 0 <? iw then Return (if is_odd_integer iw then x else abs x)
    else Return (if andb (is_odd_integer iw) (x <? 0) then -0 else 0)
  else if x =? 0 then
    if iw <? 0 then Raise ZeroDivisionError
    else Return (if is_odd_integer iw then x else 0)
  else
    let iv := if x <? 0 then - x else x in
    let negate_result := andb (x <? 0) (is_odd_integer iw) in
    if iv =? 1 then Return (if negate_result then -1 else 1)
    else
      let (ix, range_error) := libm_pow L iv iw in
      (* _Py_ADJUST_ERANGE1 *)
      let range_error :=
        if range_error then negb (ix =? 0) else is_infinity ix in
      if range_error then Raise OverflowError
      else Return (if negate_result then - ix else ix).

(** [np.log10] and [np.log] on a scalar: the special values are IEEE's,
    a positive finite argument goes to the C library. *)
Definition np_log10 (L : Libm) (x : float) : float :=
  if is_nan x then x
  else if x =? 0 then neg_infinity
  else if x <? 0 then nan
  else if is_infinity x then x
  else libm_log10 L x.

Definition np_log (L : Libm) (x : float) : float :=
  if is_nan x then x
  else if x =? 0 then neg_infinity
  else if x <? 0 then nan
  else if is_infinity x then x
  else libm_log L x.

Definition default_f : float := 0.01.
Definition default_N_b : float := 7.3e21.
Definition default_T : float := 300.

Definition bits_estimation (L : Libm) (n : Z) (f N_b : float) : result float :=
  try_except
    (q <- py_truediv N_b f ;;
     p <- py_pow L (f + 1) (n + 1) ;;
     let bits := q * (p - 1) in
     Return (np_log10 L bits))
    OverflowError
    (Return nan).

Definition power_requirement (L : Libm) (n : Z) (f N_b T : float)
    : result float :=
  let k_B := 1.38064852e-23 in
  let annual_seconds := 3.154e7 in
  try_except
    (let landauer := N_b * k_B * T * np_log L 2 in
     p <- py_pow L (f + 1) n ;;
     let energy := landauer * p in
     Return (np_log10 L (energy / annual_seconds)))
    OverflowError
    (Return nan).

Definition mass_energy_equivalent (L : Libm) (n : Z) (f N_b T : float)
    : result float :=
  let k_B := 1.38064852e-23 in
  let c := 3.0e8 in
  try_except
    (let kTln2 := k_B * T * np_log L 2 in
     c2 <- py_pow L c 2 ;;
     let m_bit := kTln2 / c2 in
     p <- py_pow L (f + 1) (n + 1) ;;
     let info_mass := N_b * (m_bit / f) * (p - 1) in
     Return (np_log10 L info_mass))
    OverflowError
    (Return nan).

Definition growth_rates : list float := [0.01; 0.05; 0.2; 0.5].


End B64.

(** * Properties of the exact layer *)

(** ** The range and the constants *)

Lemma float_max_lower : 2 ^ 1023 <= float_max.
Proof. unfold float_max. lra. Qed.


Lemma float_max_pos : 0 < float_max.
Proof. unfold float_max. lra. Qed.

Lemma in_range_intro (r : R) :
  - float_max <= r <= float_max -> in_range r.
Proof. intros [Hl Hu]. unfold in_range. apply Rabs_le. split; assumption. Qed.

Lemma in_range_bounds (r : R) :
  in_range r -> - float_max <= r <= float_max.
Proof.
  unfold in_range. intros H.
  pose proof (Rle_abs r) as Hu. pose proof (Rle_abs (- r)) as Hl.
  rewrite Rabs_Ropp in Hl. split; lra.
Qed.

Lemma in_range_small (r : R) : -2 ^ 1023 <= r <= 2 ^ 1023 -> in_range r.
Proof.
  intros [Hl Hu]. apply in_range_intro.
  pose proof float_max_lower. split; lra.
Qed.

Lemma round_fin (r : R) : in_range r -> round r = Fin r.
Proof.
  intros H. apply in_range_bounds in H. unfold round.
  destruct (Rlt_dec float_max r); [lra |].
  destruct (Rlt_dec r (- float_max)); [lra | reflexivity].
Qed.

Lemma inf_signed_zero : inf_signed 0 = NaN.
Proof.
  unfold inf_signed.
  destruct (total_order_T 0 0) as [[Hlt | Heq] | Hgt]; [lra | reflexivity | lra].
Qed.

Lemma f_add_fin (x y : R) : in_range (x + y) -> f_add (Fin x) (Fin y) = Fin (x + y).
Proof. intros H. simpl. apply round_fin. assumption. Qed.

Lemma f_sub_fin (x y : R) : in_range (x - y) -> f_sub (Fin x) (Fin y) = Fin (x - y).
Proof. intros H. unfold f_sub. simpl. apply round_fin. assumption. Qed.

Lemma f_mul_fin (x y : R) : in_range (x * y) -> f_mul (Fin x) (Fin y) = Fin (x * y).
Proof. intros H. simpl. apply round_fin. assumption. Qed.

Lemma f_div_fin (x y : R) :
  y <> 0 -> in_range (x / y) -> f_div (Fin x) (Fin y) = Fin (x / y).
Proof.
  intros Hy H. simpl. destruct (Req_dec_T y 0); [contradiction |].
  apply round_fin. assumption.
Qed.

Lemma py_truediv_zero (a : float64) :
  py_truediv a (Fin 0) = Raise ZeroDivisionError.
Proof.
  unfold py_truediv. destruct (Req_dec_T 0 0); [reflexivity | contradiction].
Qed.

Lemma float_of_int_ok (k : Z) :
  in_range (IZR k) -> float_of_int k = Return (Fin (IZR k)).
Proof.
  intros H. unfold float_of_int.
  destruct (in_range_dec (IZR k)); [reflexivity | contradiction].
Qed.

Lemma powerRZ_zero_exp (a : R) (k : Z) : (k =? 0)%Z = true -> powerRZ a k = 1.
Proof. intros H. apply Z.eqb_eq in H. subst k. reflexivity. Qed.

Lemma py_pow_fin (a : R) (k : Z) :
  in_range (IZR k) -> a <> 0 -> in_range (powerRZ a k) ->
  py_pow (Fin a) k = Return (Fin (powerRZ a k)).
Proof.
  intros Hk Ha Hr. unfold py_pow. rewrite float_of_int_ok by assumption.
  cbn [bind]. destruct (k =? 0)%Z eqn:E.
  - rewrite (powerRZ_zero_exp a k E). reflexivity.
  - destruct (Req_dec_T a 0); [contradiction |].
    destruct (in_range_dec (powerRZ a k)); [reflexivity | contradiction].
Qed.

Lemma in_range_1 : in_range 1.
Proof. apply in_range_small. lra. Qed.


Lemma powerRZ_of_nat (a : R) (n : nat) : powerRZ a (Z.of_nat n) = a ^ n.
Proof. symmetry. apply pow_powerRZ. Qed.

Lemma powerRZ_succ_nat (a : R) (n : nat) :
  powerRZ a (Z.of_nat n + 1) = a ^ (n + 1).
Proof.
  replace (Z.of_nat n + 1)%Z with (Z.of_nat (n + 1)) by lia.
  apply powerRZ_of_nat.
Qed.

Lemma np_log10_pos (x : R) : 0 < x -> np_log10 (Fin x) = Fin (Rlog10 x).
Proof.
  intros H. unfold np_log10.
  destruct (total_order_T x 0) as [[Hlt | Heq] | Hgt]; [lra | lra | reflexivity].
Qed.

Lemma np_log_2 : np_log (Fin 2) = Fin (ln 2).
Proof.
  unfold np_log.
  destruct (total_order_T 2 0) as [[Hlt | Heq] | Hgt]; [lra | lra | reflexivity].
Qed.

Lemma pow_gt_1 (x : R) (n : nat) : 0 < x -> 1 < (x + 1) ^ (n + 1).
Proof.
  intros H. apply Rlt_pow_R1; [lra | lia].
Qed.

Lemma in_range_le (r s : R) : 0 <= r <= s -> in_range s -> in_range r.
Proof.
  intros [H0 H1] Hs. apply in_range_bounds in Hs. apply in_range_intro.
  pose proof float_max_pos. lra.
Qed.

Lemma ln_2_pos : 0 < ln 2.
Proof. pose proof ln_lt_2. lra. Qed.

(** ** Bounds on ln 2 and on decimal logarithms *)

Lemma pow_le_exp (x : R) (n : nat) : 0 <= 1 + x -> (1 + x) ^ n <= exp (INR n * x).
Proof.
  intros Hx. induction n as [| n IH].
  - simpl. rewrite Rmult_0_l, exp_0. lra.
  - rewrite S_INR. replace ((INR n + 1) * x) with (x + INR n * x) by ring.
    rewrite exp_plus. simpl.
    pose proof (exp_ineq1_le x). pose proof (exp_pos (INR n * x)).
    assert (0 <= (1 + x) ^ n) by (apply pow_le; assumption).
    apply Rmult_le_compat; lra.
Qed.

Lemma exp_lower_2 : 2 < exp 0.7.
Proof.
  pose proof (pow_le_exp (0.7 / 64) 64) as H.
  replace (INR 64 * (0.7 / 64)) with 0.7 in H by (simpl; lra).
  lra.
Qed.

Lemma exp_upper_2 : exp 0.69 < 2.
Proof.
  pose proof (pow_le_exp (- 0.69 / 256) 256) as H.
  replace (INR 256 * (- 0.69 / 256)) with (Ropp 0.69) in H by (simpl; lra).
  rewrite exp_Ropp in H. pose proof (exp_pos 0.69) as Hp.
  assert (Hh : / 2 < / exp 0.69) by lra.
  destruct (Rlt_dec (exp 0.69) 2) as [Hlt | Hge]; [assumption |].
  exfalso. assert (/ exp 0.69 <= / 2) by (apply Rinv_le_contravar; lra). lra.
Qed.

Lemma ln_2_upper : ln 2 < 0.7.
Proof.
  rewrite <- (ln_exp 0.7). apply ln_increasing; [lra | exact exp_lower_2].
Qed.

Lemma ln_2_lower : 0.69 < ln 2.
Proof.
  rewrite <- (ln_exp 0.69). apply ln_increasing; [apply exp_pos | exact exp_upper_2].
Qed.

Lemma ln_10_pos : 0 < ln 10.
Proof. rewrite <- ln_1. apply ln_increasing; lra. Qed.

Lemma Rlog10_increasing (x y : R) : 0 < x -> x < y -> Rlog10 x < Rlog10 y.
Proof.
  intros Hx Hxy. unfold Rlog10. pose proof ln_10_pos.
  apply Rmult_lt_compat_r; [apply Rinv_0_lt_compat; assumption |].
  apply ln_increasing; assumption.
Qed.


Lemma Rlog10_inj (x y : R) : 0 < x -> 0 < y -> Rlog10 x = Rlog10 y -> x = y.
Proof.
  intros Hx Hy H. unfold Rlog10 in H. pose proof ln_10_pos.
  apply ln_inv; try assumption.
  apply Rmult_eq_reg_r with (r := / ln 10); [exact H |].
  apply Rinv_neq_0_compat. lra.
Qed.

Lemma Rlog10_1 : Rlog10 1 = 0.
Proof. unfold Rlog10. rewrite ln_1. lra. Qed.

Lemma Rlog10_mult (x y : R) :
  0 < x -> 0 < y -> Rlog10 (x * y) = Rlog10 x + Rlog10 y.
Proof.
  intros Hx Hy. unfold Rlog10. rewrite ln_mult by assumption.
  pose proof ln_10_pos. field. lra.
Qed.

Lemma Rlog10_pow (x : R) (q : nat) : 0 < x -> Rlog10 (x ^ q) = INR q * Rlog10 x.
Proof.
  intros Hx. unfold Rlog10. rewrite ln_pow by assumption.
  pose proof ln_10_pos. field. lra.
Qed.

Lemma Rlog10_pow10 (p : nat) : Rlog10 (10 ^ p) = INR p.
Proof.
  rewrite Rlog10_pow by lra. unfold Rlog10. pose proof ln_10_pos. field. lra.
Qed.



Lemma Rlog10_gt_neg (x : R) (p q : nat) :
  0 < x -> (0 < q)%nat -> 1 < x ^ q * 10 ^ p -> - INR p / INR q < Rlog10 x.
Proof.
  intros Hx Hq H. assert (0 < INR q) by (apply lt_0_INR; assumption).
  assert (Hl : Rlog10 1 < Rlog10 (x ^ q * 10 ^ p))
    by (apply Rlog10_increasing; [lra | assumption]).
  rewrite Rlog10_1, Rlog10_mult, Rlog10_pow10, Rlog10_pow in Hl
    by (assumption || (apply pow_lt; lra)).
  apply Rmult_lt_reg_r with (r := INR q); [assumption |].
  replace (- INR p / INR q * INR q) with (- INR p) by (field; lra). lra.
Qed.

Lemma Rlog10_lt_neg (x : R) (p q : nat) :
  0 < x -> (0 < q)%nat -> x ^ q * 10 ^ p < 1 -> Rlog10 x < - INR p / INR q.
Proof.
  intros Hx Hq H. assert (0 < INR q) by (apply lt_0_INR; assumption).
  assert (Hl : Rlog10 (x ^ q * 10 ^ p) < Rlog10 1).
  { apply Rlog10_increasing; [| assumption].
    apply Rmult_lt_0_compat; apply pow_lt; lra. }
  rewrite Rlog10_1, Rlog10_mult, Rlog10_pow10, Rlog10_pow in Hl
    by (assumption || (apply pow_lt; lra)).
  apply Rmult_lt_reg_r with (r := INR q); [assumption |].
  replace (- INR p / INR q * INR q) with (- INR p) by (field; lra). lra.
Qed.

(** A literal [INR] as the decimal it denotes. *)
Ltac inr_literal :=
  repeat rewrite INR_IZR_INZ in *;
  repeat match goal with
    | |- context [Z.of_nat ?n] =>
        let z := eval vm_compute in (Z.of_nat n) in
        change (Z.of_nat n) with z
    | H : context [Z.of_nat ?n] |- _ =>
        let z := eval vm_compute in (Z.of_nat n) in
        change (Z.of_nat n) with z in H
    end.

(** Range checks on closed expressions (with [ln 2] as the only
    transcendental). *)
Ltac in_range_closed :=
  apply in_range_small;
  pose proof ln_2_lower; pose proof ln_2_upper;
  cbn [Z.of_nat Z.add Pos.add Pos.of_succ_nat Pos.succ Nat.add];
  split; lra.

(** ** The evaluators on finite arguments *)

Lemma pow_minus_1_in_range (n : nat) (f : R) :
  0 < f -> in_range ((f + 1) ^ (n + 1)) -> in_range ((f + 1) ^ (n + 1) - 1).
Proof.
  intros Hf H. pose proof (pow_gt_1 f n Hf).
  apply in_range_le with (s := (f + 1) ^ (n + 1)); [lra | assumption].
Qed.

Lemma rate_plus_1_in_range (f : R) : 0 < f <= 1 -> in_range (f + 1).
Proof. intros H. apply in_range_small. lra. Qed.

Lemma power_requirement_fin (n : nat) (f N_b T : R) :
  0 < f <= 1 -> power_no_overflow n f N_b T ->
  power_requirement (Z.of_nat n) (Fin f) (Fin N_b) (Fin T) =
  Return (np_log10
            (Fin (N_b * 1.38064852e-23 * T * ln 2 * (f + 1) ^ n / 3.154e7))).
Proof.
  intros Hf (H1 & H2 & H3 & Hk & Hp & H4 & H5). unfold power_requirement.
  rewrite np_log_2. rewrite !f_mul_fin by assumption.
  rewrite f_add_fin by (apply rate_plus_1_in_range; assumption).
  rewrite py_pow_fin; rewrite ?powerRZ_of_nat; try assumption; try lra.
  cbn [bind]. rewrite f_mul_fin by assumption. unfold np_truediv.
  rewrite f_div_fin by (assumption || lra). reflexivity.
Qed.

Lemma power_positive (n : nat) (f N_b T : R) :
  0 < f -> 0 < N_b -> 0 < T ->
  0 < N_b * 1.38064852e-23 * T * ln 2 * (f + 1) ^ n / 3.154e7.
Proof.
  intros Hf HN HT.
  assert (0 < (f + 1) ^ n) by (apply pow_lt; lra).
  pose proof ln_2_pos.
  apply Rdiv_lt_0_compat; [| lra].
  apply Rmult_lt_0_compat; [| assumption].
  apply Rmult_lt_0_compat; [| assumption].
  apply Rmult_lt_0_compat; [| assumption].
  apply Rmult_lt_0_compat; lra.
Qed.

Lemma c_squared : py_pow (Fin 3.0e8) 2 = Return (Fin (3.0e8 ^ 2)).
Proof.
  change 2%Z with (Z.of_nat 2). rewrite <- powerRZ_of_nat.
  apply py_pow_fin.
  - apply in_range_small. simpl. lra.
  - lra.
  - rewrite powerRZ_of_nat. apply in_range_small. lra.
Qed.

Lemma mass_energy_equivalent_fin (n : nat) (f N_b T : R) :
  0 < f <= 1 -> mass_no_overflow n f N_b T ->
  mass_energy_equivalent (Z.of_nat n) (Fin f) (Fin N_b) (Fin T) =
  Return (np_log10
            (Fin (N_b * (m_bit_of T / f) * ((f + 1) ^ (n + 1) - 1)))).
Proof.
  intros Hf (H1 & H2 & H3 & H4 & H5 & Hk & Hp & H6).
  unfold mass_energy_equivalent. unfold m_bit_of in *.
  rewrite np_log_2, c_squared. cbn [bind].
  rewrite !f_mul_fin by assumption. unfold np_truediv.
  rewrite (f_div_fin _ (3.0e8 ^ 2)) by (assumption || lra).
  rewrite f_div_fin by (assumption || lra).
  rewrite f_mul_fin by assumption.
  rewrite f_add_fin by (apply rate_plus_1_in_range; assumption).
  rewrite py_pow_fin; rewrite ?powerRZ_succ_nat; try assumption; try lra.
  cbn [bind].
  rewrite f_sub_fin by (apply pow_minus_1_in_range; [lra | assumption]).
  rewrite f_mul_fin by assumption. reflexivity.
Qed.

Lemma m_bit_positive (T : R) : 0 < T -> 0 < m_bit_of T.
Proof.
  intros HT. unfold m_bit_of. pose proof ln_2_pos.
  apply Rdiv_lt_0_compat; [| lra].
  apply Rmult_lt_0_compat; [| assumption].
  apply Rmult_lt_0_compat; lra.
Qed.

Lemma mass_positive (n : nat) (f N_b T : R) :
  0 < f -> 0 < N_b -> 0 < T ->
  0 < N_b * (m_bit_of T / f) * ((f + 1) ^ (n + 1) - 1).
Proof.
  intros Hf HN HT. pose proof (pow_gt_1 f n Hf). pose proof (m_bit_positive T HT).
  apply Rmult_lt_0_compat; [| lra].
  apply Rmult_lt_0_compat; [lra |].
  apply Rdiv_lt_0_compat; assumption.
Qed.

(** ** Year 0 *)

Lemma power_year0_value :
  power_requirement 0 default_f default_N_b default_T =
  Return (Fin (Rlog10 (1.38064852e-23 * 300 * ln 2 * 7.3e21 / 3.154e7))).
Proof.
  change 0%Z with (Z.of_nat 0). unfold default_f, default_N_b, default_T.
  rewrite power_requirement_fin.
  - rewrite np_log10_pos by (apply power_positive; lra).
    do 3 apply f_equal. simpl. lra.
  - lra.
  - unfold power_no_overflow. repeat split; in_range_closed.
Qed.

Lemma power_year0_bounds :
  -6.18 < Rlog10 (1.38064852e-23 * 300 * ln 2 * 7.3e21 / 3.154e7) < -6.17.
Proof.
  pose proof ln_2_lower. pose proof ln_2_upper. split.
  - apply Rlt_trans with (r2 := Rlog10 6.61e-7).
    + pose proof (Rlog10_gt_neg 6.61e-7 618 100) as Hb. inr_literal.
      assert (-6.18 = -618 / 100) as -> by lra.
      apply Hb; [lra | lia | lra].
    + apply Rlog10_increasing; lra.
  - apply Rlt_trans with (r2 := Rlog10 6.72e-7).
    + apply Rlog10_increasing; lra.
    + pose proof (Rlog10_lt_neg 6.72e-7 617 100) as Hb. inr_literal.
      assert (-6.17 = -617 / 100) as -> by lra.
      apply Hb; [lra | lia | lra].
Qed.

(** C5, as the code has it: [power_requirement(0, 0.01, 7.3e21, 300)]
    returns log10(k_B * T * ln 2 * N_b / seconds_per_year), and that value
    lies between -6.18 and -6.17. *)
Theorem power_requirement_year0 :
  exists v : R,
    power_requirement 0 default_f default_N_b default_T = Return (Fin v) /\
    v = Rlog10 (1.38064852e-23 * 300 * ln 2 * 7.3e21 / 3.154e7) /\
    -6.18 < v < -6.17.
Proof.
  eexists. split; [exact power_year0_value |].
  split; [reflexivity | exact power_year0_bounds].
Qed.

(** C5, as stated, fails: the value returned for year 0 is not within a
    whole unit of -1.02. *)
Lemma power_requirement_year0_not_near_claimed :
  ~ (exists v : R,
       power_requirement 0 default_f default_N_b default_T = Return (Fin v) /\
       Rabs (v - (-1.02)) <= 1).
Proof.
  intros (v & Hv & Habs). rewrite power_year0_value in Hv.
  injection Hv as Hv. pose proof power_year0_bounds as [Hl Hu].
  rewrite Hv in Hu.
  pose proof (Rle_abs (- (v - (-1.02)))) as Hn. rewrite Rabs_Ropp in Hn. lra.
Qed.


(** ** Overflow of the power *)

Lemma py_truediv_nonzero (a : float64) (y : R) :
  y <> 0 -> py_truediv a (Fin y) = Return (f_div a (Fin y)).
Proof.
  intros Hy. unfold py_truediv. destruct (Req_dec_T y 0); [contradiction |].
  reflexivity.
Qed.





(** With a non-negative exponent the power returns or overflows: the
    zero-division case needs a negative exponent. *)
Lemma py_pow_nonneg (x : float64) (k : Z) :
  (0 <= k)%Z ->
  (exists v, py_pow x k = Return v) \/ py_pow x k = Raise OverflowError.
Proof.
  intros Hk. unfold py_pow, float_of_int.
  destruct (in_range_dec (IZR k)); [| right; reflexivity]. cbn [bind].
  destruct (k =? 0)%Z; [left; eexists; reflexivity |].
  destruct x as [a | | |]; try (left; eexists; reflexivity).
  destruct (Req_dec_T a 0).
  - destruct (k <? 0)%Z eqn:E; [apply Z.ltb_lt in E; lia |].
    left; eexists; reflexivity.
  - destruct (in_range_dec (powerRZ a k)); [left; eexists | right]; reflexivity.
Qed.

Lemma bits_estimation_returns (n : Z) (f : R) (N_b : float64) :
  (0 <= n)%Z -> f <> 0 -> exists v, bits_estimation n (Fin f) N_b = Return v.
Proof.
  intros Hn Hf. unfold bits_estimation.
  rewrite py_truediv_nonzero by assumption. cbn [bind].
  destruct (py_pow_nonneg (f_add (Fin f) (Fin 1)) (n + 1)) as [[v Hv] | Ho];
    [lia | rewrite Hv | rewrite Ho]; eexists; reflexivity.
Qed.

Lemma mass_energy_equivalent_returns (n : Z) (f N_b T : float64) :
  (0 <= n)%Z -> exists v, mass_energy_equivalent n f N_b T = Return v.
Proof.
  intros Hn. unfold mass_energy_equivalent. rewrite c_squared. cbn [bind].
  destruct (py_pow_nonneg (f_add f (Fin 1)) (n + 1)) as [[v Hv] | Ho];
    [lia | rewrite Hv | rewrite Ho]; eexists; reflexivity.
Qed.

Lemma power_requirement_returns (n : Z) (f N_b T : float64) :
  (0 <= n)%Z -> exists v, power_requirement n f N_b T = Return v.
Proof.
  intros Hn. unfold power_requirement.
  destruct (py_pow_nonneg (f_add f (Fin 1)) n) as [[v Hv] | Ho];
    [lia | rewrite Hv | rewrite Ho]; eexists; reflexivity.
Qed.

(** ** List comprehensions *)

Section ListComp.
Context {A B : Type}.
Variable g : A -> result B.

Lemma list_comp_length (l : list A) (s : list B) :
  list_comp g l = Return s -> List.length s = List.length l.
Proof.
  revert s. induction l as [| y l IH]; intros s H; simpl in H.
  - injection H as <-. reflexivity.
  - destruct (g y) as [v | e]; [| discriminate]. cbn [bind] in H.
    destruct (list_comp g l) as [vs | e]; [| discriminate]. cbn [bind] in H.
    injection H as <-. simpl. f_equal. apply IH. reflexivity.
Qed.

Lemma list_comp_nth (l : list A) (s : list B) (i : nat) (d : A) (d' : B) :
  list_comp g l = Return s -> (i < List.length l)%nat ->
  g (nth i l d) = Return (nth i s d').
Proof.
  revert s i. induction l as [| y l IH]; intros s i H Hi; simpl in H, Hi.
  - lia.
  - destruct (g y) as [v | e] eqn:Ey; [| discriminate]. cbn [bind] in H.
    destruct (list_comp g l) as [vs | e]; [| discriminate]. cbn [bind] in H.
    injection H as <-. destruct i as [| i]; simpl.
    + exact Ey.
    + apply IH; [reflexivity | lia].
Qed.

Lemma list_comp_returns (l : list A) :
  (forall y, In y l -> exists v, g y = Return v) ->
  exists s, list_comp g l = Return s.
Proof.
  induction l as [| y l IH]; intros H; simpl.
  - eexists; reflexivity.
  - destruct (H y (or_introl eq_refl)) as [v ->]. cbn [bind].
    destruct IH as [vs ->]; [intros z Hz; apply H; right; exact Hz |].
    eexists; reflexivity.
Qed.

(** An exception at the first element ends the comprehension. *)
Lemma list_comp_head_raises (l : list A) (d : A) (e : exn) :
  l <> [] -> g (nth 0 l d) = Raise e -> list_comp g l = Raise e.
Proof.
  intros Hl H. destruct l as [| y l]; [contradiction |].
  simpl in *. rewrite H. reflexivity.
Qed.
End ListComp.

Lemma in_range_list (lo hi y : Z) :
  In y (range lo hi) -> (lo <= y < hi)%Z.
Proof.
  unfold range. intros H. apply in_map_iff in H. destruct H as (i & <- & Hi).
  apply in_seq in Hi. lia.
Qed.

Lemma years_nonneg (y : Z) : In y years -> (0 <= y)%Z.
Proof. intros H. apply in_range_list in H. lia. Qed.

Lemma sweep_bits_returns (f : R) (N_b : float64) :
  f <> 0 ->
  exists s, sweep (fun y f => bits_estimation y f N_b) (Fin f) = Return s.
Proof.
  intros Hf. unfold sweep. apply list_comp_returns.
  intros y Hy. apply bits_estimation_returns; [apply years_nonneg |]; assumption.
Qed.

Lemma sweep_mass_returns (f N_b T : float64) :
  exists s, sweep (fun y f => mass_energy_equivalent y f N_b T) f = Return s.
Proof.
  unfold sweep. apply list_comp_returns.
  intros y Hy. apply mass_energy_equivalent_returns, years_nonneg, Hy.
Qed.

Lemma sweep_power_returns (f N_b T : float64) :
  exists s, sweep (fun y f => power_requirement y f N_b T) f = Return s.
Proof.
  unfold sweep. apply list_comp_returns.
  intros y Hy. apply power_requirement_returns, years_nonneg, Hy.
Qed.



(** ** A zero growth rate *)

Lemma f_div_zero_not_finite (a : float64) : ~ is_finite (f_div a (Fin 0)).
Proof.
  destruct a as [x | | |]; simpl.
  - destruct (Req_dec_T 0 0) as [_ | E]; [| contradiction].
    unfold inf_signed.
    destruct (total_order_T x 0) as [[? | ?] | ?]; simpl; tauto.
  - destruct (Rlt_dec 0 0); simpl; tauto.
  - destruct (Rlt_dec 0 0); simpl; tauto.
  - tauto.
Qed.

Lemma inf_signed_not_finite (x : R) : ~ is_finite (inf_signed x).
Proof.
  unfold inf_signed.
  destruct (total_order_T x 0) as [[? | ?] | ?]; simpl; tauto.
Qed.

Lemma f_mul_not_finite_r (a b : float64) :
  ~ is_finite b -> ~ is_finite (f_mul a b).
Proof.
  intros Hb. destruct a as [x | | |], b as [y | | |]; simpl in *;
    try tauto; apply inf_signed_not_finite.
Qed.

(** An infinity or a NaN times zero is NaN. *)
Lemma f_mul_not_finite_zero (a : float64) (x : R) :
  ~ is_finite a -> x = 0 -> f_mul a (Fin x) = NaN.
Proof.
  intros Ha ->. destruct a as [y | | |]; simpl in *; try tauto.
  - apply inf_signed_zero.
  - rewrite Ropp_0. apply inf_signed_zero.
Qed.

Lemma py_pow_one (k : Z) :
  py_pow (Fin 1) k = Return (Fin 1) \/ py_pow (Fin 1) k = Raise OverflowError.
Proof.
  unfold py_pow, float_of_int.
  destruct (in_range_dec (IZR k)); [| right; reflexivity]. cbn [bind].
  destruct (k =? 0)%Z; [left; reflexivity |].
  destruct (Req_dec_T 1 0); [lra |].
  rewrite powerRZ_R1.
  destruct (in_range_dec 1) as [_ | H]; [left; reflexivity |].
  contradiction H. exact in_range_1.
Qed.

Lemma bits_estimation_zero_rate (n : Z) (N_b : float64) :
  bits_estimation n (Fin 0) N_b = Raise ZeroDivisionError.
Proof.
  unfold bits_estimation. rewrite py_truediv_zero. reflexivity.
Qed.

Lemma mass_energy_equivalent_zero_rate (n : Z) (N_b T : float64) :
  mass_energy_equivalent n (Fin 0) N_b T = Return NaN.
Proof.
  unfold mass_energy_equivalent. rewrite c_squared. cbn [bind].
  rewrite f_add_fin by (rewrite Rplus_0_l; exact in_range_1).
  rewrite Rplus_0_l.
  destruct (py_pow_one (n + 1)) as [-> | ->]; [| reflexivity].
  cbn [bind try_except]. unfold f_sub. cbn [f_neg f_add].
  rewrite round_fin by in_range_closed.
  rewrite f_mul_not_finite_zero; [reflexivity | | lra].
  apply f_mul_not_finite_r. unfold np_truediv. apply f_div_zero_not_finite.
Qed.

(** C6, as the code has it: with [f = 0], [mass_energy_equivalent] returns
    NaN for every year, baseline and temperature (the numpy quotient
    [m_bit / f] is infinite or NaN, and its product with
    [(f + 1)**(n + 1) - 1 = 0] is NaN), while [bits_estimation] raises
    [ZeroDivisionError] from the Python quotient [N_b / f]; its handler
    catches [OverflowError] only. *)
Theorem zero_rate_outcomes (n : Z) (N_b T : float64) :
  mass_energy_equivalent n (Fin 0) N_b T = Return NaN /\
  bits_estimation n (Fin 0) N_b = Raise ZeroDivisionError.
Proof.
  split.
  - apply mass_energy_equivalent_zero_rate.
  - apply bits_estimation_zero_rate.
Qed.

(** C6, as stated, fails: [bits_estimation(1, 0)] neither returns NaN nor
    returns at all; the division fault reaches the caller. *)
Lemma bits_estimation_zero_rate_faults :
  bits_estimation 1 (Fin 0) default_N_b = Raise ZeroDivisionError /\
  bits_estimation 1 (Fin 0) default_N_b <> Return NaN.
Proof.
  rewrite bits_estimation_zero_rate. split; [reflexivity | discriminate].
Qed.

(** ** Results *)

Lemma Return_inj {A : Type} (a b : A) : Return a = Return b -> a = b.
Proof. intros H. injection H as H. exact H. Qed.

(** ** The figure of the two limits *)

Lemma years_length : List.length years = Z.to_nat 10000.
Proof. unfold years, range. rewrite length_map, length_seq. reflexivity. Qed.

Lemma first_year : nth 0 years 0%Z = 1%Z.
Proof.
  unfold years, range.
  replace (Z.to_nat (10001 - 1)) with (S (Z.to_nat 9999)) by lia.
  reflexivity.
Qed.

(** One pass of the loop of cell In[7] on the two axes. *)
Lemma limits_loop_fold (rates : list float64) (ax : Axes * Axes) :
  limits_loop rates ax =
  Return
    (fold_left
       (fun ax f =>
          (plot (fst ax) years (series_of (mass_sweep f)) (Percent f) Solid,
           plot (snd ax) years (series_of (mass_sweep f)) (Percent f) Solid))
       rates ax).
Proof.
  revert ax. induction rates as [| f rest IH]; intros ax; cbn [limits_loop fold_left].
  - reflexivity.
  - destruct (sweep_mass_returns f default_N_b default_T) as [bits Hb].
    destruct (sweep_power_returns f default_N_b default_T) as [power Hp].
    assert (Hs : series_of (mass_sweep f) = bits)
      by (unfold mass_sweep; rewrite Hb; reflexivity).
    rewrite Hb, Hp, Hs. cbn [bind]. apply IH.
Qed.

Lemma fold_plot_lines (rates : list float64) (ax : Axes * Axes) :
  let ax' :=
    fold_left
      (fun ax f =>
         (plot (fst ax) years (series_of (mass_sweep f)) (Percent f) Solid,
          plot (snd ax) years (series_of (mass_sweep f)) (Percent f) Solid))
      rates ax in
  lines (fst ax') =
    lines (fst ax) ++
    map (fun f => mkLine years (series_of (mass_sweep f)) (Percent f) Solid) rates /\
  lines (snd ax') =
    lines (snd ax) ++
    map (fun f => mkLine years (series_of (mass_sweep f)) (Percent f) Solid) rates.
Proof.
  revert ax. induction rates as [| f rest IH]; intros ax; cbn [fold_left map].
  - rewrite !app_nil_r. split; reflexivity.
  - destruct (IH (plot (fst ax) years (series_of (mass_sweep f)) (Percent f) Solid,
                  plot (snd ax) years (series_of (mass_sweep f)) (Percent f) Solid))
      as [H0 H1].
    cbn zeta in *. rewrite H0, H1. cbn [fst snd plot lines].
    rewrite <- !app_assoc. split; reflexivity.
Qed.

(** In year 1 the mass value and the power value differ, for each of the
    four scenarios. *)
Lemma year1_mass_is_not_power (f : float64) :
  In f growth_rates ->
  exists x y : R,
    mass_energy_equivalent 1 f default_N_b default_T = Return (Fin x) /\
    power_requirement 1 f default_N_b default_T = Return (Fin y) /\
    x <> y.
Proof.
  intros H. unfold growth_rates in H. cbn [In] in H.
  change 1%Z with (Z.of_nat 1). unfold default_N_b, default_T.
  destruct H as [<- | [<- | [<- | [<- | []]]]].
  all: eexists; eexists; split; [| split].
  all: try (rewrite mass_energy_equivalent_fin;
            [rewrite np_log10_pos by (apply mass_positive; lra); reflexivity
            | lra
            | unfold mass_no_overflow, m_bit_of; repeat split; in_range_closed]).
  all: try (rewrite power_requirement_fin;
            [rewrite np_log10_pos by (apply power_positive; lra); reflexivity
            | lra
            | unfold power_no_overflow; repeat split; in_range_closed]).
  all: intros E; apply Rlog10_inj in E;
    [ unfold m_bit_of in E; cbn [Nat.add] in E;
      pose proof ln_2_lower; pose proof ln_2_upper; lra
    | apply mass_positive; lra
    | apply power_positive; lra ].
Qed.

(** C7: what cell In[7] draws.  The axes titled "Power Requirement of
    Digital Bit Production" receive, after the dashed Earth-power line,
    one line per scenario whose values are the series of
    [mass_energy_equivalent], the same lines as the axes titled
    "Information Mass of Digital Bit Production"; the series of
    [power_requirement] is computed (it differs from the mass series
    already in year 1) and is drawn nowhere. *)
Theorem power_chart_draws_mass_series :
  exists ax0 ax1 : Axes,
    limits_figure = Return (ax0, ax1) /\
    title ax0 = "Power Requirement of Digital Bit Production"%string /\
    title ax1 = "Information Mass of Digital Bit Production"%string /\
    lines ax0 =
      mkLine years (map (fun _ => p_earth) years) (Text "Earth Power") Dashed
      :: map (fun f => mkLine years (series_of (mass_sweep f)) (Percent f) Solid)
           growth_rates /\
    lines ax1 =
      mkLine years (map (fun _ => m_earth) years) (Text "Earth Mass") Dashed
      :: map (fun f => mkLine years (series_of (mass_sweep f)) (Percent f) Solid)
           growth_rates /\
    forall f : float64, In f growth_rates ->
      exists bits power : list float64,
        mass_sweep f = Return bits /\
        power_sweep f = Return power /\
        List.length bits = List.length years /\
        List.length power = List.length years /\
        nth 0 bits NaN <> nth 0 power NaN.
Proof.
  unfold limits_figure. rewrite limits_loop_fold. cbn [bind].
  eexists. eexists. split; [reflexivity |].
  match goal with
  | |- context [fold_left ?step growth_rates ?ax] =>
      destruct (fold_plot_lines growth_rates ax) as [H0 H1]
  end.
  cbn zeta in H0, H1.
  split; [reflexivity |]. split; [reflexivity |].
  split; [cbn [decorate lines]; rewrite H0; reflexivity |].
  split; [cbn [decorate lines]; rewrite H1; reflexivity |].
  intros f Hf.
  destruct (sweep_mass_returns f default_N_b default_T) as [bits Hb].
  destruct (sweep_power_returns f default_N_b default_T) as [power Hp].
  exists bits, power. unfold mass_sweep, power_sweep.
  split; [exact Hb |]. split; [exact Hp |].
  unfold sweep in Hb, Hp.
  split; [apply (list_comp_length _ _ _ Hb) |].
  split; [apply (list_comp_length _ _ _ Hp) |].
  assert (Hlen : (0 < List.length years)%nat) by (rewrite years_length; lia).
  pose proof (list_comp_nth _ _ _ 0%nat 0%Z NaN Hb Hlen) as Eb.
  pose proof (list_comp_nth _ _ _ 0%nat 0%Z NaN Hp Hlen) as Ep.
  cbv beta in Eb, Ep. rewrite first_year in Eb, Ep.
  destruct (year1_mass_is_not_power f Hf) as (x & y & Ex & Ey & Hxy).
  rewrite Ex in Eb. rewrite Ey in Ep.
  apply Return_inj in Eb. apply Return_inj in Ep.
  rewrite <- Eb, <- Ep. intros E. injection E as E. contradiction.
Qed.

(** ** The figure of the growth model *)

Lemma growth_loop_fold (rates : list float64) (ax : Axes) :
  (forall f, In f rates -> exists x : R, f = Fin x /\ x <> 0) ->
  growth_loop rates ax =
  Return
    (fold_left
       (fun ax f => plot ax years (series_of (growth_sweep f)) (Percent f) Solid)
       rates ax).
Proof.
  revert ax. induction rates as [| f rest IH]; intros ax H;
    cbn [growth_loop fold_left].
  - reflexivity.
  - destruct (H f (or_introl eq_refl)) as (x & -> & Hx).
    destruct (sweep_bits_returns x default_N_b Hx) as [bits Hb].
    assert (Hs : series_of (growth_sweep (Fin x)) = bits)
      by (unfold growth_sweep; rewrite Hb; reflexivity).
    rewrite Hb, Hs. cbn [bind]. apply IH.
    intros g Hg. apply H. right. exact Hg.
Qed.

Lemma fold_growth_lines (rates : list float64) (ax : Axes) :
  lines
    (fold_left
       (fun ax f => plot ax years (series_of (growth_sweep f)) (Percent f) Solid)
       rates ax) =
  lines ax ++
  map (fun f => mkLine years (series_of (growth_sweep f)) (Percent f) Solid) rates.
Proof.
  revert ax. induction rates as [| f rest IH]; intros ax; cbn [fold_left map].
  - rewrite app_nil_r. reflexivity.
  - rewrite IH. cbn [plot lines]. rewrite <- app_assoc. reflexivity.
Qed.

Lemma growth_rates_nonzero (f : float64) :
  In f growth_rates -> exists x : R, f = Fin x /\ x <> 0.
Proof.
  unfold growth_rates. cbn [In].
  intros [<- | [<- | [<- | [<- | []]]]]; eexists; (split; [reflexivity | lra]).
Qed.

(** Cell In[4] runs to completion and draws one line per scenario, each
    as long as [years]. *)
Lemma growth_figure_returns :
  exists ax : Axes,
    growth_figure = Return ax /\
    lines ax =
      map (fun f => mkLine years (series_of (growth_sweep f)) (Percent f) Solid)
        growth_rates /\
    forall l : Line, In l (lines ax) ->
      List.length (ydata l) = List.length (xdata l).
Proof.
  unfold growth_figure.
  rewrite growth_loop_fold by exact growth_rates_nonzero. cbn [bind].
  eexists. split; [reflexivity |].
  cbn [decorate lines]. rewrite fold_growth_lines. cbn [new_axes lines app].
  split; [reflexivity |].
  intros l Hl. apply in_map_iff in Hl. destruct Hl as (f & <- & Hf).
  cbn [ydata xdata].
  destruct (growth_rates_nonzero f Hf) as (x & -> & Hx).
  destruct (sweep_bits_returns x default_N_b Hx) as [bits Hb].
  unfold growth_sweep. rewrite Hb. cbn [series_of].
  unfold sweep in Hb. apply (list_comp_length _ _ _ Hb).
Qed.

(** A zero rate among the scenarios would end the sweep, and with it the
    cell, at the first year. *)
Lemma growth_sweep_zero_rate : growth_sweep (Fin 0) = Raise ZeroDivisionError.
Proof.
  unfold growth_sweep, sweep.
  apply list_comp_head_raises with (d := 0%Z).
  - intros E. pose proof years_length as H. rewrite E in H. simpl in H. lia.
  - apply bits_estimation_zero_rate.
Qed.

(** ** Faults of the evaluators *)

(** X6: for a year [n >= 0], [mass_energy_equivalent] and
    [power_requirement] return a value whatever floats the rate, the
    baseline and the temperature are (zero, infinite and NaN included): no
    exception leaves them. *)
Theorem mass_and_power_never_raise (n : Z) (f N_b T : float64) :
  (0 <= n)%Z ->
  (exists v, mass_energy_equivalent n f N_b T = Return v) /\
  (exists v, power_requirement n f N_b T = Return v).
Proof.
  intros Hn. split.
  - apply mass_energy_equivalent_returns. assumption.
  - apply power_requirement_returns. assumption.
Qed.

Lemma mass_and_power_never_raise_witness :
  (exists v, mass_energy_equivalent 3 (Fin 0) NaN PInf = Return v) /\
  (exists v, power_requirement 3 (Fin 0) NaN PInf = Return v).
Proof.
  apply (mass_and_power_never_raise 3 (Fin 0) NaN PInf). lia.
Defined.

(** ** Year 0 and the rate *)

Lemma py_pow_zero_exponent (x : float64) : py_pow x 0 = Return (Fin 1).
Proof.
  unfold py_pow. rewrite float_of_int_ok by in_range_closed. reflexivity.
Qed.

(** X10: in year 0 [power_requirement] does not depend on the growth
    rate, whatever float it is (NaN and the infinities included):
    [x ** 0] is 1.0 for every [x]. *)
Theorem power_requirement_year0_any_rate (f f' N_b T : float64) :
  power_requirement 0 f N_b T = power_requirement 0 f' N_b T.
Proof.
  unfold power_requirement. rewrite !py_pow_zero_exponent. reflexivity.
Qed.

(** ** The loops over the scenarios *)

Lemma growth_sweep_zero_rate_any_baseline (N_b : float64) :
  sweep (fun y f => bits_estimation y f N_b) (Fin 0) = Raise ZeroDivisionError.
Proof.
  unfold sweep. apply list_comp_head_raises with (d := 0%Z).
  - intros E. pose proof years_length as H. rewrite E in H. simpl in H. lia.
  - apply bits_estimation_zero_rate.
Qed.

(** X11: in the loop of cell In[4], a zero rate after any number of
    non-zero finite rates ends the loop with [ZeroDivisionError]: the
    fault of [bits_estimation] goes through the list comprehension and the
    loop, and no figure is produced. *)
Theorem growth_loop_zero_rate_aborts (before after : list float64) (ax : Axes) :
  (forall f, In f before -> exists x : R, f = Fin x /\ x <> 0) ->
  growth_loop (before ++ Fin 0 :: after) ax = Raise ZeroDivisionError.
Proof.
  revert ax. induction before as [| f rest IH]; intros ax H;
    cbn [app growth_loop].
  - rewrite growth_sweep_zero_rate_any_baseline. reflexivity.
  - destruct (H f (or_introl eq_refl)) as (x & -> & Hx).
    destruct (sweep_bits_returns x default_N_b Hx) as [bits ->].
    cbn [bind]. apply IH. intros g Hg. apply H. right. exact Hg.
Qed.

Lemma growth_loop_zero_rate_aborts_witness :
  growth_loop ([Fin 0.01; Fin 0.05] ++ Fin 0 :: [Fin 0.5]) new_axes =
  Raise ZeroDivisionError.
Proof.
  apply (growth_loop_zero_rate_aborts [Fin 0.01; Fin 0.05] [Fin 0.5] new_axes).
  cbn [In]. intros f [<- | [<- | []]]; eexists; (split; [reflexivity | lra]).
Defined.

(** X12: the loop of cell In[4] over non-zero finite rates returns, adds
    one solid line per rate, in the order of the rates and labelled with
    the rate, and every added series is as long as [years]. *)
Theorem growth_loop_one_line_per_rate (rates : list float64) (ax : Axes) :
  (forall f, In f rates -> exists x : R, f = Fin x /\ x <> 0) ->
  exists ax' : Axes,
    growth_loop rates ax = Return ax' /\
    lines ax' =
      lines ax ++
      map (fun f => mkLine years (series_of (growth_sweep f)) (Percent f) Solid)
        rates /\
    forall f, In f rates ->
      growth_sweep f = Return (series_of (growth_sweep f)) /\
      List.length (series_of (growth_sweep f)) = List.length years.
Proof.
  intros H. rewrite growth_loop_fold by assumption.
  eexists. split; [reflexivity |]. split; [apply fold_growth_lines |].
  intros f Hf. destruct (H f Hf) as (x & -> & Hx).
  destruct (sweep_bits_returns x default_N_b Hx) as [bits Hb].
  unfold growth_sweep. rewrite Hb. cbn [series_of].
  split; [reflexivity |]. unfold sweep in Hb.
  apply (list_comp_length _ _ _ Hb).
Qed.

Lemma growth_loop_one_line_per_rate_witness :
  exists ax' : Axes,
    growth_loop growth_rates new_axes = Return ax' /\
    lines ax' =
      lines new_axes ++
      map (fun f => mkLine years (series_of (growth_sweep f)) (Percent f) Solid)
        growth_rates /\
    forall f, In f growth_rates ->
      growth_sweep f = Return (series_of (growth_sweep f)) /\
      List.length (series_of (growth_sweep f)) = List.length years.
Proof.
  apply (growth_loop_one_line_per_rate growth_rates new_axes).
  unfold growth_rates. cbn [In].
  intros f [<- | [<- | [<- | [<- | []]]]]; eexists; (split; [reflexivity | lra]).
Defined.

(** X13: the loop of cell In[7] returns for every list of rates, whatever
    floats they are, and adds to both axes the same lines, one per rate,
    whose values are the series of [mass_energy_equivalent]; the series of
    [power_requirement] enters neither. *)
Theorem limits_loop_same_lines (rates : list float64) (ax0 ax1 : Axes) :
  exists ax0' ax1' : Axes,
    limits_loop rates (ax0, ax1) = Return (ax0', ax1') /\
    lines ax0' =
      lines ax0 ++
      map (fun f => mkLine years (series_of (mass_sweep f)) (Percent f) Solid)
        rates /\
    lines ax1' =
      lines ax1 ++
      map (fun f => mkLine years (series_of (mass_sweep f)) (Percent f) Solid)
        rates /\
    forall f, In f rates -> mass_sweep f = Return (series_of (mass_sweep f)).
Proof.
  rewrite limits_loop_fold.
  destruct (fold_plot_lines rates (ax0, ax1)) as [H0 H1]. cbn zeta in H0, H1.
  match goal with
  | H : lines (fst ?r) = _ |- _ => exists (fst r), (snd r)
  end.
  split; [rewrite <- surjective_pairing; reflexivity |].
  split; [exact H0 |]. split; [exact H1 |].
  intros f _.
  destruct (sweep_mass_returns f default_N_b default_T) as [bits Hb].
  unfold mass_sweep. rewrite Hb. reflexivity.
Qed.

Lemma list_comp_const {A B : Type} (g : A -> result B) (c : B) (l : list A) :
  (forall y, In y l -> g y = Return c) ->
  list_comp g l = Return (map (fun _ => c) l).
Proof.
  induction l as [| y l IH]; intros H; cbn [list_comp map].
  - reflexivity.
  - rewrite (H y (or_introl eq_refl)). cbn [bind].
    rewrite IH by (intros z Hz; apply H; right; exact Hz). reflexivity.
Qed.

Lemma power_requirement_zero_rate (n : Z) (N_b T : float64) :
  (0 <= n)%Z -> in_range (IZR n) ->
  power_requirement n (Fin 0) N_b T = power_requirement 0 (Fin 0) N_b T.
Proof.
  intros Hn Hr. unfold power_requirement.
  rewrite f_add_fin by (rewrite Rplus_0_l; exact in_range_1).
  rewrite Rplus_0_l, py_pow_zero_exponent.
  rewrite py_pow_fin; [rewrite powerRZ_R1; reflexivity | assumption | lra |].
  rewrite powerRZ_R1. exact in_range_1.
Qed.

Lemma years_in_range (y : Z) : In y years -> in_range (IZR y).
Proof.
  intros H. apply in_range_list in H. apply in_range_small.
  assert (0 <= IZR y) by (apply IZR_le; lia).
  assert (IZR y <= 10001) by (apply IZR_le; lia).
  split; lra.
Qed.

(** X14: with the rate 0 the two sweeps of cell In[7] return, for every
    baseline and temperature: the mass series is NaN in every year, and
    the power series is constant, every year having the value of year 0. *)
Theorem zero_rate_series (N_b T : float64) :
  sweep (fun y f => mass_energy_equivalent y f N_b T) (Fin 0) =
    Return (map (fun _ => NaN) years) /\
  exists v : float64,
    power_requirement 0 (Fin 0) N_b T = Return v /\
    sweep (fun y f => power_requirement y f N_b T) (Fin 0) =
      Return (map (fun _ => v) years).
Proof.
  split.
  - unfold sweep. apply list_comp_const.
    intros y _. apply mass_energy_equivalent_zero_rate.
  - destruct (power_requirement_returns 0 (Fin 0) N_b T) as [v Hv]; [lia |].
    exists v. split; [exact Hv |].
    unfold sweep. apply list_comp_const. intros y Hy.
    rewrite power_requirement_zero_rate;
      [exact Hv | apply years_nonneg; exact Hy | apply years_in_range; exact Hy].
Qed.

(** * Properties of the binary64 evaluators *)

(** ** Zeros, NaN and signs *)


(** A product with zero is a zero or NaN. *)
Lemma b64_mul_zero_r (x : float) :
  (x * 0 = 0 \/ x * 0 = -0 \/ x * 0 = nan)%float.
Proof.
  pose proof (mul_spec x 0) as H.
  change (Prim2SF 0) with (S754_zero false) in H.
  destruct (Prim2SF x) as [s | s | | s m e]; try destruct s; cbn in H.
  all: first
    [ left; apply Prim2SF_inj; rewrite H; reflexivity
    | right; left; apply Prim2SF_inj; rewrite H; reflexivity
    | right; right; apply Prim2SF_inj; rewrite H; reflexivity ].
Qed.


(** [np.log10] of a zero is minus infinity and of NaN is NaN, whatever
    the C library. *)
Lemma b64_np_log10_zero_or_nan (L : B64.Libm) (y : float) :
  (y = 0 \/ y = -0 \/ y = nan)%float ->
  B64.np_log10 L y = neg_infinity \/ B64.np_log10 L y = nan.
Proof.
  intros [-> | [-> | ->]]; [left | left | right]; reflexivity.
Qed.

(** ** The power of a base that is 1.0 *)

Lemma b64_py_pow_one (L : B64.Libm) (k : Z) :
  B64.py_pow L 1 k = Return 1%float \/ B64.py_pow L 1 k = Raise OverflowError.
Proof.
  unfold B64.py_pow. destruct (B64.float_of_int k) as [iw | e] eqn:E.
  - cbn [bind]. destruct (iw =? 0)%float; [left; reflexivity |].
    left. reflexivity.
  - right. unfold B64.float_of_int in E.
    destruct (is_infinity _); [| discriminate].
    injection E as <-. reflexivity.
Qed.

(** A rate so small that [f + 1] is 1.0 accumulates nothing: the power is
    1.0 without a call to the C library, the bit count is a zero (NaN when
    [N_b / f] is not finite), and its logarithm is minus infinity or NaN,
    in every year. *)
Lemma b64_bits_estimation_absorbed (L : B64.Libm) (n : Z) (f N_b : float) :
  (f + 1)%float = 1%float -> (f =? 0)%float = false ->
  B64.bits_estimation L n f N_b = Return neg_infinity \/
  B64.bits_estimation L n f N_b = Return nan.
Proof.
  intros H1 H0. unfold B64.bits_estimation, B64.py_truediv.
  rewrite H0, H1. cbn [bind].
  destruct (b64_py_pow_one L (n + 1)) as [-> | ->];
    cbn [bind try_except exn_eqb]; [| right; reflexivity].
  replace (1 - 1)%float with 0%float by reflexivity.
  destruct (b64_np_log10_zero_or_nan L _ (b64_mul_zero_r (N_b / f)))
    as [-> | ->]; [left | right]; reflexivity.
Qed.

(** ** The values returned *)










(** ** Year 0 *)





(** ** Rates below the rounding unit *)

Lemma b64_mass_energy_equivalent_absorbed (L : B64.Libm) (n : Z)
    (f N_b T : float) :
  (f + 1)%float = 1%float ->
  B64.mass_energy_equivalent L n f N_b T = Return neg_infinity \/
  B64.mass_energy_equivalent L n f N_b T = Return nan.
Proof.
  intros H1. unfold B64.mass_energy_equivalent.
  destruct (B64.py_pow L 3.0e8 2) as [c2 | e] eqn:Ec.
  - cbn [bind]. rewrite H1.
    destruct (b64_py_pow_one L (n + 1)) as [-> | ->];
      cbn [bind try_except exn_eqb]; [| right; reflexivity].
    replace (1 - 1)%float with 0%float by reflexivity.
    match goal with
    | |- context [B64.np_log10 L (?x * 0)%float] =>
        destruct (b64_np_log10_zero_or_nan L _ (b64_mul_zero_r x))
          as [-> | ->]
    end; [left | right]; reflexivity.
  - cbn [bind try_except].
    assert (e = OverflowError) as ->.
    { unfold B64.py_pow in Ec.
      replace (B64.float_of_int 2) with (@Return float 2%float) in Ec
        by reflexivity.
      cbn [bind] in Ec.
      replace (2 =? 0)%float with false in Ec by reflexivity.
      replace (is_nan 3.0e8) with false in Ec by reflexivity.
      replace (is_infinity 3.0e8) with false in Ec by reflexivity.
      replace (3.0e8 =? 0)%float with false in Ec by reflexivity.
      replace (3.0e8 <? 0)%float with false in Ec by reflexivity.
      replace (3.0e8 =? 1)%float with false in Ec by reflexivity.
      cbn [andb] in Ec.
      destruct (B64.libm_pow L 3.0e8 2) as [ix r].
      destruct (if r then negb (ix =? 0)%float else is_infinity ix);
        [injection Ec as <-; reflexivity | discriminate]. }
    right. reflexivity.
Qed.

(** X15: a rate [f] other than zero whose sum [f + 1] is 1.0 in binary64
    (for instance 1e-17) accumulates nothing: in every year, for every
    baseline and temperature and under every C library,
    [bits_estimation] and [mass_energy_equivalent] return minus infinity
    or NaN, never a finite value. *)
Theorem b64_absorbed_rate_accumulates_nothing (L : B64.Libm) (n : Z)
    (f N_b T : float) :
  (f + 1)%float = 1%float -> (f =? 0)%float = false ->
  (B64.bits_estimation L n f N_b = Return neg_infinity \/
   B64.bits_estimation L n f N_b = Return nan) /\
  (B64.mass_energy_equivalent L n f N_b T = Return neg_infinity \/
   B64.mass_energy_equivalent L n f N_b T = Return nan).
Proof.
  intros H1 H0. split.
  - apply b64_bits_estimation_absorbed; assumption.
  - apply b64_mass_energy_equivalent_absorbed; assumption.
Qed.

Lemma b64_absorbed_rate_accumulates_nothing_witness :
  let L := B64.mkLibm (fun x _ => (x * x, false)%float) (fun x => x)
             (fun x => x) in
  (B64.bits_estimation L 40 1e-17 7.3e21 = Return neg_infinity \/
   B64.bits_estimation L 40 1e-17 7.3e21 = Return nan) /\
  (B64.mass_energy_equivalent L 40 1e-17 7.3e21 300 = Return neg_infinity \/
   B64.mass_energy_equivalent L 40 1e-17 7.3e21 300 = Return nan).
Proof.
  intros L.
  apply (b64_absorbed_rate_accumulates_nothing L 40 1e-17 7.3e21 300);
    reflexivity.
Defined.

(** X16: for a rate whose sum [f + 1] is 1.0 in binary64,
    [power_requirement] returns in every year that converts to a float
    what it returns in year 0: the series is flat, under every C library. *)
Theorem b64_absorbed_rate_power_is_flat (L : B64.Libm) (n : Z)
    (f N_b T iw : float) :
  (f + 1)%float = 1%float ->
  B64.float_of_int n = Return iw ->
  B64.power_requirement L n f N_b T = B64.power_requirement L 0 f N_b T.
Proof.
  intros H1 Hn. unfold B64.power_requirement. rewrite H1.
  assert (Hp : B64.py_pow L 1 n = Return 1%float).
  { unfold B64.py_pow. rewrite Hn. cbn [bind].
    destruct (iw =? 0)%float; reflexivity. }
  rewrite Hp. reflexivity.
Qed.

Lemma b64_absorbed_rate_power_is_flat_witness :
  let L := B64.mkLibm (fun x _ => (x * x, false)%float) (fun x => x)
             (fun x => x) in
  B64.power_requirement L 10000 1e-17 7.3e21 300 =
  B64.power_requirement L 0 1e-17 7.3e21 300.
Proof.
  intros L.
  apply (b64_absorbed_rate_power_is_flat L 10000 1e-17 7.3e21 300 10000);
    reflexivity.
Defined.

(** ** The order of two rates *)

(** With [N_b = 7.3e21] the rate 1e-300 gives NaN in year 1 (the quotient
    [N_b / f] is infinite and is multiplied by zero), so no larger rate
    compares as greater or equal to it, under every C library. *)
Lemma b64_bits_estimation_rate_order_fails (L : B64.Libm) (f2 v2 : float) :
  B64.bits_estimation L 1 1e-300 7.3e21 = Return nan /\
  (B64.bits_estimation L 1 f2 7.3e21 = Return v2 ->
   (nan <=? v2)%float = false).
Proof.
  split; [reflexivity |]. intros _. rewrite leb_spec.
  change (Prim2SF nan) with S754_nan. reflexivity.
Qed.
